(** * Ground-truth outputs of the user study

    Verification development for [src/user_study_results/ground_truth_outputs.py]
    of llm-consistency-vis.  The Python module is pure data: its body binds two
    module-level names, [MONSTERS_FIRST_20] and [PLACES_FIRST_20], each to a
    list display of twenty double-quoted string literals.  The literals are
    plain ASCII and contain neither a backslash nor a double quote, so the
    value of each literal is the text between its quotes, byte for byte.

    The embedding follows the module as Python executes it:
    - a list display builds a new list by appending the value of each element
      expression, left to right ([list_display]);
    - executing the module body stores the two lists in the module's global
      namespace, a dictionary from names to objects ([exec_module]);
    - a consumer reads a constant by name ([getattr]) and subscripts it with an
      integer ([getitem]); both raise on failure, as in Python
      ([AttributeError], [IndexError]). *)

From Stdlib Require Import ZArith String Ascii List Bool Lia.
From stdpp Require Import base option list strings gmap.

Local Open Scope string_scope.
Local Open Scope list_scope.

(** ** Python results *)

(** The exceptions the read path of this module can raise. *)
Inductive exn : Type :=
  | AttributeError
  | IndexError.

(** Outcome of evaluating a Python expression: a value or a raised exception. *)
Inductive result (A : Type) : Type :=
  | Ok (a : A)
  | Raise (e : exn).

Arguments Ok {A} a.
Arguments Raise {A} e.

Definition result_bind {A B : Type} (f : A -> result B) (r : result A) : result B :=
  match r with
  | Ok a => f a
  | Raise e => Raise e
  end.

#[global] Instance result_ret : MRet result := fun A a => Ok a.
#[global] Instance result_mbind : MBind result := fun A B f r => result_bind f r.

(** ** Python list and string primitives *)

(** [[e0, e1, ..., en]]: a fresh list, each element appended in source order. *)
Definition list_display (elts : list string) : list string :=
  fold_left (fun acc e => acc ++ [e]) elts [].

(** [l[i]] for an integer [i]: a negative index counts from the end, an index
    outside [-len(l) .. len(l)-1] raises [IndexError]. *)
Definition getitem (l : list string) (i : Z) : result string :=
  let n := Z.of_nat (length l) in
  let j := if (i <? 0)%Z then (i + n)%Z else i in
  if ((j <? 0) || (n <=? j))%Z then Raise IndexError
  else match l !! Z.to_nat j with
       | Some s => Ok s
       | None => Raise IndexError
       end.

(** [s.startswith(p)]. *)
Definition startswith (s p : string) : bool := String.prefix p s.

(** [s.endswith(p)]. *)
Definition endswith (s p : string) : bool :=
  let n := String.length s in
  let k := String.length p in
  (k <=? n)%nat && String.eqb (String.substring (n - k) k s) p.

(** [sub in s]: [sub] occurs in [s] at some offset. *)
Fixpoint contains (sub s : string) : bool :=
  String.prefix sub s ||
  match s with
  | EmptyString => false
  | String _ s' => contains sub s'
  end.

(** A character that terminates a sentence. *)
Definition is_stop (c : ascii) : bool :=
  Ascii.eqb c "." || Ascii.eqb c "!" || Ascii.eqb c "?".

(** Number of sentence-terminating stops in a text. *)
Fixpoint count_stops (s : string) : nat :=
  match s with
  | EmptyString => 0
  | String c s' => (if is_stop c then 1 else 0) + count_stops s'
  end.

(** [all(P(c) for c in s)]. *)
Fixpoint all_chars (P : ascii -> bool) (s : string) : bool :=
  match s with
  | EmptyString => true
  | String c s' => P c && all_chars P s'
  end.

(** A printable ASCII character: code 32 (space) to 126 (tilde). *)
Definition is_printable_ascii (c : ascii) : bool :=
  let n := nat_of_ascii c in (32 <=? n)%nat && (n <=? 126)%nat.

(** A character a double-quoted Python literal cannot hold as written: the
    double quote (code 34) and the backslash (code 92). *)
Definition needs_escape (c : ascii) : bool :=
  let n := nat_of_ascii c in (n =? 34)%nat || (n =? 92)%nat.

(** ** The module's data *)

(** The element expressions of the list display assigned to
    [MONSTERS_FIRST_20], in source order. *)
Definition MONSTERS_FIRST_20_literals : list string := [
    "The Lumivine is a bioluminescent vine creature that emits a soothing glow; once a guardian of sacred groves, it now ensnares travelers to protect its dwindling forests from harm.";
    "The Lumigore is a once-gentle forest guardian, transformed into a vengeful monster by a dark curse after its forest was destroyed by greedy mages seeking magical resources.";
    "The Luminal Wisp is a mischievous, ethereal creature that once guarded the border between realms but was cursed to roam aimlessly after being tricked into abandoning its post by a deceitful sorcerer.";
    "The Lamenting Willow: A tree-like creature born from the sorrows of lost travelers, it wanders the magical world seeking to guide others home, but its mournful wails often attract dangerous predators.";
    "The Lumivine, a bioluminescent vine creature, was once a guardian spirit of the forest corrupted by dark magic, now ensnaring lost travelers in its glowing tendrils.";
    "The Lumisprite is a glowing, moth-like creature that once served as guardians of the magical world's light sources, but were corrupted by dark magic, causing them to spread shadows instead.";
    "The Lumivine is a bioluminescent vine creature that once thrived on sunlight, but after a sorcerer's curse, it now feeds on the dreams of lost children to survive.";
    "The Lumivine is a bioluminescent vine creature that was once the guardian of the forest's light, cursed into a monstrous form for failing to protect its realm from darkness.";
    "The Lumivine: Once benevolent forest spirits, these creatures transformed into glowing, vine-covered beasts after a dark curse, now luring lost travelers deeper into the enchanted woods.";
    "The Lumivine Serpent is a glowing, vine-covered snake that was once a guardian spirit of the forest, but became twisted and hostile after a botched spell by a rogue wizard seeking to harness its power.";
    "The Luminescent Gloomling, once benevolent spirits of light, were cursed by a dark sorcerer and now wander the woods, seeking to absorb the light from any living being they encounter to regain their lost purity.";
    "The Lumivore is a bioluminescent, shadowy creature that was once a guardian of light, but turned into a monster after being corrupted by the darkness it vowed to protect against.";
    "The Lumigloom are shadowy creatures that were once the guiding spirits of the enchanted forest, but were corrupted by dark magic and now seek to trap lost souls in their eternal night.";
    "The Willow Wisp is a mischievous spirit born from the lost souls of children who wandered too far into the enchanted forest, guiding travelers deeper into the woods with its alluring glow in hopes of finding a way home themselves.";
    "The Lumivores are ethereal creatures that feed on light, created long ago by a sorcerer who sought to dim the world's radiance in a bid for eternal night.";
    "The Lumivine Serpent is a bioluminescent snake that once served as guardians of the forest's ancient secrets but became cursed to eternally search for their lost wisdom.";
    "The Lumibrume is a misty creature that guards the enchanted forests; it was once a wise sage who transformed to protect the realm from intruders after a tragic betrayal.";
    "The Lumisprite is a bioluminescent creature that guides lost souls through the forest; once benevolent protectors, they turned mischievous after a magical curse, leading travelers astray unless a riddle is solved.";
    "The Lumivine Serpent is a bioluminescent snake-like creature that once served as guardians of ancient forest temples, glowing in the dark to guide lost souls back to safety.";
    "The Lumigloom is a bioluminescent, shadowy creature born from lost wishes, casting eerie lights in the dark forest, seeking to guide or mislead travelers based on their intentions."
].

(** The element expressions of the list display assigned to
    [PLACES_FIRST_20], in source order. *)
Definition PLACES_FIRST_20_literals : list string := [
    "The Whispering Glade is an ancient forest where trees communicate secrets of the world to those who listen, believed to be the resting place of an old druid who merged with nature centuries ago.";
    "The Crystal Caverns: Once the sacred home of an ancient order of seers, these luminescent caves now serve as a refuge for those seeking visions of the future, with every crystal reflecting echoes of forgotten prophecies.";
    "The Crystal Caverns: Once a sacred site for ancient druids, these luminescent caves now serve as a refuge for lost travelers, with crystals that heal those who seek their light.";
    "The Whispering Glade is an ancient forest where trees are said to hold the memories of the world, and travelers who listen closely can hear secrets of the past whispered by the rustling leaves.";
    "The Luminous Glade is a serene forest clearing where ancient druids once gathered to harness the moon's power, leaving behind a faint, perpetual glow that enhances magical abilities.";
    "The Glimmering Falls: A cascading waterfall infused with ancient magic, believed to be the birthplace of the realm's first wizards, where players can harness rare elemental powers.";
    "The Whispering Glade is an ancient forest where the trees are said to hold the memories of the world, and adventurers visit to seek guidance from the ethereal voices that echo through its leaves.";
    "The Luminous Grove is a radiant forest where ancient, bioluminescent trees illuminate paths to forgotten altars, once used by druids to commune with celestial beings.";
    "The Glimmering Caves of Eldoria: Once a hidden refuge for ancient wizards, these luminescent caverns now serve as a sacred site where adventurers seek wisdom and magical artifacts left behind.";
    "Whispering Glade: An ancient forest where ethereal spirits share secrets of lost magic, once a sacred meeting place for wizards of old.";
    "The Shimmering Glade is a mystical forest where ancient wizards once gathered to harness celestial magic, leaving behind enchanted runes that still pulse with arcane energy.";
    "The Whispering Glade: Once an ancient elven sanctuary, it is now a mystical forest where the trees softly murmur forgotten secrets and guide worthy adventurers to hidden treasures.";
    "The Whispering Glade: Once a sacred meeting ground for ancient druids, this mystical grove now echoes with the secrets of the forest, guiding adventurers who seek nature's wisdom.";
    "Mystic Glade: Once a sacred meeting place for ancient druids, this enchanted forest clearing now teems with magical flora and serves as a refuge for lost travelers seeking guidance.";
    "The Luminous Caverns: Once the sacred gathering place of the ancient Luminaris, these glowing, crystal-filled caves now serve as a sanctuary for adventurers seeking wisdom from the echoes of the past.";
    "The Shimmering Glade is an ancient grove where ethereal lights dance, said to be the resting place of the first Enchanter who harnessed the power of the stars to weave magic into the world.";
    "The Whispering Grove: Once a sacred meeting place for ancient druids who harnessed its mystical energies, it now serves as a haven for travelers seeking guidance from the enchanted trees that softly share secrets of the past.";
    "The Whispering Glade: A serene forest where ancient trees hum with the secrets of the land, said to be the resting place of a forgotten civilization's wisdom, guarded by ethereal spirits.";
    "The Whispering Glade is an enchanted forest where ancient spirits communicate through the rustling leaves, once serving as a sacred meeting ground for druids to seek wisdom and guidance.";
    "Emerald Glade: A serene forest clearing where ancient druids once convened to harness the land's magic, now serving as a sanctuary for weary travelers seeking rejuvenation."
].

(** [MONSTERS_FIRST_20 = [ ... ]] *)
Definition MONSTERS_FIRST_20 : list string :=
  list_display MONSTERS_FIRST_20_literals.

(** [PLACES_FIRST_20 = [ ... ]] *)
Definition PLACES_FIRST_20 : list string :=
  list_display PLACES_FIRST_20_literals.

(** ** The module namespace *)

(** Executing the module body: the two assignment statements, in order, on the
    namespace [globals] the module starts from.  The namespace holds the names
    bound to lists; the docstring, which Python stores under [__doc__], and
    the other names of the import system ([__name__], [__builtins__], ...) are
    strings and objects outside it, so a statement about names other than the
    two constants is made for names that do not start with two underscores. *)
Definition exec_module (globals : gmap string (list string)) : gmap string (list string) :=
  <["PLACES_FIRST_20" := PLACES_FIRST_20]>
    (<["MONSTERS_FIRST_20" := MONSTERS_FIRST_20]> globals).

(** The namespace of the module once imported. *)
Definition module_globals : gmap string (list string) := exec_module ∅.

(** Reading the attribute [name] of a module whose namespace is [globals]. *)
Definition getattr (globals : gmap string (list string)) (name : string) : result (list string) :=
  match globals !! name with
  | Some v => Ok v
  | None => Raise AttributeError
  end.


(** [module.name[i]]: read the constant, then subscript it. *)
Definition read_item (globals : gmap string (list string)) (name : string) (i : Z) : result string :=
  getattr globals name ≫= fun l => getitem l i.



(** ** Facts about the primitives *)

Section Primitives.

Implicit Types (l elts : list string) (s p sub : string) (i : Z).

Lemma list_display_from elts : forall acc,
  fold_left (fun acc e => acc ++ [e]) elts acc = acc ++ elts.
Proof.
  induction elts as [|e elts IH]; intros acc; simpl.
  - by rewrite app_nil_r.
  - by rewrite IH, <- app_assoc.
Qed.

(** A list display holds its element values in source order. *)
Lemma list_display_id elts : list_display elts = elts.
Proof. unfold list_display. by rewrite list_display_from. Qed.

Lemma getitem_nonneg l i s :
  (0 <= i)%Z -> l !! Z.to_nat i = Some s -> getitem l i = Ok s.
Proof.
  intros Hi Hs. unfold getitem.
  assert (Hlt : (Z.to_nat i < length l)%nat) by (eapply lookup_lt_Some; eauto).
  destruct (Z.ltb_spec i 0) as [?|_]; [lia|].
  destruct (Z.ltb_spec i 0) as [?|_]; [lia|].
  destruct (Z.leb_spec (Z.of_nat (length l)) i) as [?|_]; [lia|].
  simpl. by rewrite Hs.
Qed.

(** Subscripting inside the bounds never raises. *)
Lemma getitem_in_range l i :
  (0 <= i < Z.of_nat (length l))%Z ->
  exists s, l !! Z.to_nat i = Some s /\ getitem l i = Ok s.
Proof.
  intros [Hlo Hhi].
  destruct (lookup_lt_is_Some_2 l (Z.to_nat i)) as [s Hs]; [lia|].
  exists s. split; [done|]. by apply getitem_nonneg.
Qed.

(** Subscripting at or past the length raises [IndexError]. *)
Lemma getitem_past_end l i :
  (Z.of_nat (length l) <= i)%Z -> getitem l i = Raise IndexError.
Proof.
  intros Hi. unfold getitem.
  destruct (Z.ltb_spec i 0) as [?|_]; [lia|].
  destruct (Z.ltb_spec i 0) as [?|_]; [lia|].
  by destruct (Z.leb_spec (Z.of_nat (length l)) i) as [_|?]; [|lia].
Qed.

Lemma prefix_spec p : forall s,
  String.prefix p s = true <-> exists t, s = p +:+ t.
Proof.
  induction p as [|a p IH]; intros s; simpl.
  - destruct s; (split; [intros _; eexists; reflexivity | done]).
  - destruct s as [|b s]; simpl.
    + split; [done | intros [t Ht]; discriminate].
    + destruct (ascii_dec a b) as [->|Hne].
      * rewrite IH. split; intros [t Ht]; exists t.
        -- subst s. reflexivity.
        -- change (String b s = String b (p +:+ t)) in Ht. congruence.
      * split; [done | intros [t Ht]].
        change (String b s = String a (p +:+ t)) in Ht. congruence.
Qed.

(** [startswith] is Python's: the text is the prefix followed by a rest. *)
Lemma startswith_spec s p :
  startswith s p = true <-> exists t, s = p +:+ t.
Proof. apply prefix_spec. Qed.

Lemma contains_nil sub :
  contains sub "" = String.prefix sub "" || false.
Proof. reflexivity. Qed.

Lemma contains_cons sub c s :
  contains sub (String c s) = String.prefix sub (String c s) || contains sub s.
Proof. reflexivity. Qed.

(** [contains] is Python's [in]: the text splits around an occurrence. *)
Lemma contains_spec sub : forall s,
  contains sub s = true <-> exists pre post, s = pre +:+ sub +:+ post.
Proof.
  intros s. split.
  - induction s as [|c s IH].
    + rewrite contains_nil, orb_true_iff, prefix_spec.
      intros [[t Ht]|?]; [|done]. by exists "", t.
    + rewrite contains_cons, orb_true_iff, prefix_spec.
      intros [[t Ht]|Hc]; [by exists "", t|].
      destruct (IH Hc) as (pre & post & ->). by exists (String c pre), post.
  - intros (pre & post & ->). induction pre as [|c pre IH].
    + change ("" +:+ sub +:+ post) with (sub +:+ post).
      assert (Hp : String.prefix sub (sub +:+ post) = true)
        by (apply prefix_spec; by exists post).
      destruct (sub +:+ post) as [|c r].
      * by rewrite contains_nil, Hp.
      * by rewrite contains_cons, Hp.
    + change (String c pre +:+ sub +:+ post) with (String c (pre +:+ sub +:+ post)).
      rewrite contains_cons, IH. apply orb_true_r.
Qed.

End Primitives.

(** ** Facts about the loaded module *)

Lemma MONSTERS_FIRST_20_eq : MONSTERS_FIRST_20 = MONSTERS_FIRST_20_literals.
Proof. apply list_display_id. Qed.

Lemma PLACES_FIRST_20_eq : PLACES_FIRST_20 = PLACES_FIRST_20_literals.
Proof. apply list_display_id. Qed.

Lemma getattr_MONSTERS_FIRST_20 :
  getattr module_globals "MONSTERS_FIRST_20" = Ok MONSTERS_FIRST_20.
Proof.
  unfold getattr, module_globals, exec_module.
  rewrite lookup_insert_ne by done. by rewrite lookup_insert_eq.
Qed.

Lemma getattr_PLACES_FIRST_20 :
  getattr module_globals "PLACES_FIRST_20" = Ok PLACES_FIRST_20.
Proof.
  unfold getattr, module_globals, exec_module. by rewrite lookup_insert_eq.
Qed.

(** Any other name that does not start with two underscores is not an
    attribute of the module. *)
Lemma getattr_other name :
  startswith name "__" = false ->
  name <> "MONSTERS_FIRST_20" -> name <> "PLACES_FIRST_20" ->
  getattr module_globals name = Raise AttributeError.
Proof.
  intros _ Hm Hp. unfold getattr, module_globals, exec_module.
  rewrite !lookup_insert_ne by done. by rewrite lookup_empty.
Qed.

(** Executing the module body again rebinds the same objects. *)
Lemma exec_module_idemp globals :
  exec_module (exec_module globals) = exec_module globals.
Proof.
  unfold exec_module. apply map_eq. intros k.
  destruct (decide ("PLACES_FIRST_20" = k)) as [<-|Hp];
    [by rewrite !lookup_insert_eq|].
  destruct (decide ("MONSTERS_FIRST_20" = k)) as [<-|Hm];
    repeat (rewrite lookup_insert_eq || rewrite lookup_insert_ne by done);
    done.
Qed.




Lemma length_MONSTERS_FIRST_20 : length MONSTERS_FIRST_20 = 20%nat.
Proof. by rewrite MONSTERS_FIRST_20_eq. Qed.

Lemma length_PLACES_FIRST_20 : length PLACES_FIRST_20 = 20%nat.
Proof. by rewrite PLACES_FIRST_20_eq. Qed.

(** ** Properties of the two constants *)

(** Closes a decidable statement about the literals by evaluation. *)
Ltac by_evaluation :=
  rewrite ?MONSTERS_FIRST_20_eq, ?PLACES_FIRST_20_eq;
  apply (bool_decide_unpack _); vm_compute; exact I.

(** C1: [MONSTERS_FIRST_20] holds exactly 20 elements, and so does
    [PLACES_FIRST_20]. *)
Theorem both_sequences_have_20_elements :
  length MONSTERS_FIRST_20 = 20%nat /\ length PLACES_FIRST_20 = 20%nat.
Proof. split; [apply length_MONSTERS_FIRST_20 | apply length_PLACES_FIRST_20]. Qed.

(** C2: subscripting [MONSTERS_FIRST_20] at 0 gives a string that starts with
    "The Lumivine is a bioluminescent vine creature"; subscripting
    [PLACES_FIRST_20] at 0 gives a string that starts with
    "The Whispering Glade is an ancient forest". *)
Theorem index_0_begins_as_documented :
  (exists s, getitem MONSTERS_FIRST_20 0 = Ok s /\
     startswith s "The Lumivine is a bioluminescent vine creature" = true) /\
  (exists s, getitem PLACES_FIRST_20 0 = Ok s /\
     startswith s "The Whispering Glade is an ancient forest" = true).
Proof.
  split.
  - destruct (getitem_in_range MONSTERS_FIRST_20 0) as (s & Hs & Hget).
    + rewrite length_MONSTERS_FIRST_20. lia.
    + exists s. split; [done|].
      rewrite MONSTERS_FIRST_20_eq in Hs. by injection Hs as <-.
  - destruct (getitem_in_range PLACES_FIRST_20 0) as (s & Hs & Hget).
    + rewrite length_PLACES_FIRST_20. lia.
    + exists s. split; [done|].
      rewrite PLACES_FIRST_20_eq in Hs. by injection Hs as <-.
Qed.

(** C3: every element of [MONSTERS_FIRST_20] and every element of
    [PLACES_FIRST_20] is a string of at least one character. *)
Theorem every_element_is_non_empty :
  Forall (fun s => (0 < String.length s)%nat) MONSTERS_FIRST_20 /\
  Forall (fun s => (0 < String.length s)%nat) PLACES_FIRST_20.
Proof. split; by_evaluation. Qed.

(** C4: elements are not unique up to their subject: two different indices of
    [MONSTERS_FIRST_20] hold elements that both contain "Lumivine". *)
Theorem lumivine_appears_at_two_indices :
  exists (i j : nat) (si sj : string),
    i <> j /\
    MONSTERS_FIRST_20 !! i = Some si /\ MONSTERS_FIRST_20 !! j = Some sj /\
    contains "Lumivine" si = true /\ contains "Lumivine" sj = true.
Proof.
  rewrite MONSTERS_FIRST_20_eq.
  exists 0%nat, 4%nat. do 2 eexists.
  split; [lia|]. split; [reflexivity|]. split; [reflexivity|].
  split; vm_compute; reflexivity.
Qed.

(** C5: for every index [i] below 20, the element read at [i] from the loaded
    module is the [i]-th string literal of the source, for both sequences:
    order and text are those of the literals. *)
Theorem element_i_is_literal_i (i : nat) :
  (i < 20)%nat ->
  (exists s, MONSTERS_FIRST_20_literals !! i = Some s /\
     read_item module_globals "MONSTERS_FIRST_20" (Z.of_nat i) = Ok s) /\
  (exists s, PLACES_FIRST_20_literals !! i = Some s /\
     read_item module_globals "PLACES_FIRST_20" (Z.of_nat i) = Ok s).
Proof.
  intros Hi. unfold read_item.
  rewrite getattr_MONSTERS_FIRST_20, getattr_PLACES_FIRST_20.
  change (Ok ?l ≫= ?f) with (f l). cbv beta.
  split.
  - destruct (getitem_in_range MONSTERS_FIRST_20 (Z.of_nat i)) as (s & Hs & Hget).
    + rewrite length_MONSTERS_FIRST_20. lia.
    + exists s. split; [|done].
      by rewrite Nat2Z.id, MONSTERS_FIRST_20_eq in Hs.
  - destruct (getitem_in_range PLACES_FIRST_20 (Z.of_nat i)) as (s & Hs & Hget).
    + rewrite length_PLACES_FIRST_20. lia.
    + exists s. split; [|done].
      by rewrite Nat2Z.id, PLACES_FIRST_20_eq in Hs.
Qed.

Lemma element_i_is_literal_i_witness :
  (7 < 20)%nat /\
  ((exists s, MONSTERS_FIRST_20_literals !! 7%nat = Some s /\
      read_item module_globals "MONSTERS_FIRST_20" (Z.of_nat 7) = Ok s) /\
   (exists s, PLACES_FIRST_20_literals !! 7%nat = Some s /\
      read_item module_globals "PLACES_FIRST_20" (Z.of_nat 7) = Ok s)).
Proof. split; [lia | apply (element_i_is_literal_i 7); lia]. Defined.

(** C6: nothing on the read path fails: reading either constant from the
    loaded module returns its list, and subscripting that list at any [i] with
    [0 <= i < 20] returns a string. *)
Theorem reading_and_indexing_never_fail (i : Z) :
  (0 <= i < 20)%Z ->
  (exists l s, getattr module_globals "MONSTERS_FIRST_20" = Ok l /\ getitem l i = Ok s) /\
  (exists l s, getattr module_globals "PLACES_FIRST_20" = Ok l /\ getitem l i = Ok s).
Proof.
  intros Hi. split.
  - destruct (getitem_in_range MONSTERS_FIRST_20 i) as (s & _ & Hget).
    + rewrite length_MONSTERS_FIRST_20. lia.
    + exists MONSTERS_FIRST_20, s. split; [apply getattr_MONSTERS_FIRST_20 | done].
  - destruct (getitem_in_range PLACES_FIRST_20 i) as (s & _ & Hget).
    + rewrite length_PLACES_FIRST_20. lia.
    + exists PLACES_FIRST_20, s. split; [apply getattr_PLACES_FIRST_20 | done].
Qed.

Lemma reading_and_indexing_never_fail_witness :
  (0 <= 19 < 20)%Z /\
  ((exists l s, getattr module_globals "MONSTERS_FIRST_20" = Ok l /\ getitem l 19 = Ok s) /\
   (exists l s, getattr module_globals "PLACES_FIRST_20" = Ok l /\ getitem l 19 = Ok s)).
Proof. split; [lia | apply (reading_and_indexing_never_fail 19); lia]. Defined.




(** C8: every element of both sequences is a paragraph of one to three
    sentences: it ends with a full stop and contains at least one and at most
    three sentence-terminating stops. *)
Theorem every_element_has_one_to_three_sentences :
  Forall (fun s => (1 <= count_stops s <= 3)%nat /\ endswith s "." = true) MONSTERS_FIRST_20 /\
  Forall (fun s => (1 <= count_stops s <= 3)%nat /\ endswith s "." = true) PLACES_FIRST_20.
Proof. split; by_evaluation. Qed.

(** C9: within each sequence the elements are pairwise distinct as exact
    strings: no string occurs at two indices. *)
Theorem elements_are_pairwise_distinct :
  NoDup MONSTERS_FIRST_20 /\ NoDup PLACES_FIRST_20.
Proof. split; by_evaluation. Qed.

(** C10: every element of [MONSTERS_FIRST_20] starts with "The ", and some
    element of [PLACES_FIRST_20] does not. *)
Theorem the_prefix_monsters_only :
  Forall (fun s => startswith s "The " = true) MONSTERS_FIRST_20 /\
  (exists (i : nat) (s : string),
     PLACES_FIRST_20 !! i = Some s /\ startswith s "The " = false).
Proof.
  split; [by_evaluation|].
  rewrite PLACES_FIRST_20_eq. exists 9%nat. eexists.
  split; [reflexivity | vm_compute; reflexivity].
Qed.

(** ** The read path beyond the first twenty non-negative indices *)

Lemma getitem_wrap (l : list string) (i : Z) :
  (- Z.of_nat (length l) <= i < Z.of_nat (length l))%Z ->
  exists s, l !! Z.to_nat (i mod Z.of_nat (length l)) = Some s /\ getitem l i = Ok s.
Proof.
  intros Hi. set (n := Z.of_nat (length l)) in *.
  destruct (Z.lt_ge_cases i 0) as [Hneg|Hpos].
  - assert (Hmod : (i mod n = i + n)%Z)
      by (symmetry; apply Z.mod_unique with (q := (-1)%Z); lia).
    rewrite Hmod.
    destruct (lookup_lt_is_Some_2 l (Z.to_nat (i + n))) as [s Hs]; [lia|].
    exists s. split; [done|]. unfold getitem. fold n.
    destruct (Z.ltb_spec i 0) as [_|?]; [|lia].
    destruct (Z.ltb_spec (i + n) 0) as [?|_]; [lia|].
    destruct (Z.leb_spec n (i + n)) as [?|_]; [lia|].
    simpl. by rewrite Hs.
  - rewrite Z.mod_small by lia.
    destruct (getitem_in_range l i) as (s & Hs & Hget); [lia|]. by exists s.
Qed.

Lemma getitem_out_of_range (l : list string) (i : Z) :
  (i < - Z.of_nat (length l) \/ Z.of_nat (length l) <= i)%Z ->
  getitem l i = Raise IndexError.
Proof.
  intros [Hlo|Hhi]; [|by apply getitem_past_end].
  unfold getitem.
  destruct (Z.ltb_spec i 0) as [_|?]; [|lia].
  by destruct (Z.ltb_spec (i + Z.of_nat (length l)) 0) as [_|?]; [|lia].
Qed.

Lemma getitem_Ok_nonneg (l : list string) (i : Z) (s : string) :
  (0 <= i)%Z -> getitem l i = Ok s -> l !! Z.to_nat i = Some s.
Proof.
  intros Hi. unfold getitem.
  destruct (Z.ltb_spec i 0) as [?|_]; [lia|].
  destruct (_ || _); [done|].
  destruct (l !! Z.to_nat i); congruence.
Qed.

Lemma read_item_MONSTERS_FIRST_20 (i : Z) :
  read_item module_globals "MONSTERS_FIRST_20" i = getitem MONSTERS_FIRST_20 i.
Proof. unfold read_item. by rewrite getattr_MONSTERS_FIRST_20. Qed.

Lemma read_item_PLACES_FIRST_20 (i : Z) :
  read_item module_globals "PLACES_FIRST_20" i = getitem PLACES_FIRST_20 i.
Proof. unfold read_item. by rewrite getattr_PLACES_FIRST_20. Qed.

(** No text is shared by the two sequences or repeated inside one. *)
Lemma all_forty_texts_distinct : NoDup (MONSTERS_FIRST_20 ++ PLACES_FIRST_20).
Proof. by_evaluation. Qed.

(** X1: a subscript from -20 to 19 on either constant returns a string, and a
    negative one counts from the end: the element read at [i] is the literal
    at position [i mod 20]. *)
Theorem negative_index_counts_from_end (i : Z) :
  (-20 <= i < 20)%Z ->
  (exists s, MONSTERS_FIRST_20_literals !! Z.to_nat (i mod 20) = Some s /\
     read_item module_globals "MONSTERS_FIRST_20" i = Ok s) /\
  (exists s, PLACES_FIRST_20_literals !! Z.to_nat (i mod 20) = Some s /\
     read_item module_globals "PLACES_FIRST_20" i = Ok s).
Proof.
  intros Hi. rewrite read_item_MONSTERS_FIRST_20, read_item_PLACES_FIRST_20.
  split.
  - destruct (getitem_wrap MONSTERS_FIRST_20 i) as (s & Hs & Hget).
    + rewrite length_MONSTERS_FIRST_20. lia.
    + rewrite length_MONSTERS_FIRST_20, MONSTERS_FIRST_20_eq in Hs. by exists s.
  - destruct (getitem_wrap PLACES_FIRST_20 i) as (s & Hs & Hget).
    + rewrite length_PLACES_FIRST_20. lia.
    + rewrite length_PLACES_FIRST_20, PLACES_FIRST_20_eq in Hs. by exists s.
Qed.

Lemma negative_index_counts_from_end_witness :
  (-20 <= -1 < 20)%Z /\
  ((exists s, MONSTERS_FIRST_20_literals !! Z.to_nat (-1 mod 20) = Some s /\
      read_item module_globals "MONSTERS_FIRST_20" (-1) = Ok s) /\
   (exists s, PLACES_FIRST_20_literals !! Z.to_nat (-1 mod 20) = Some s /\
      read_item module_globals "PLACES_FIRST_20" (-1) = Ok s)).
Proof. split; [lia | apply (negative_index_counts_from_end (-1)); lia]. Defined.

(** X2: a subscript below -20 or from 20 up raises [IndexError] on either
    constant. *)
Theorem index_outside_bounds_raises (i : Z) :
  (i < -20 \/ 20 <= i)%Z ->
  read_item module_globals "MONSTERS_FIRST_20" i = Raise IndexError /\
  read_item module_globals "PLACES_FIRST_20" i = Raise IndexError.
Proof.
  intros Hi. rewrite read_item_MONSTERS_FIRST_20, read_item_PLACES_FIRST_20.
  split; apply getitem_out_of_range.
  - rewrite length_MONSTERS_FIRST_20. lia.
  - rewrite length_PLACES_FIRST_20. lia.
Qed.

Lemma index_outside_bounds_raises_witness :
  (20 < -20 \/ 20 <= 20)%Z /\
  (read_item module_globals "MONSTERS_FIRST_20" 20 = Raise IndexError /\
   read_item module_globals "PLACES_FIRST_20" 20 = Raise IndexError).
Proof. split; [lia | apply (index_outside_bounds_raises 20); lia]. Defined.

(** X3: the two constants are the only names of its own that the module
    exposes: for a name that does not start with two underscores, reading it
    succeeds if and only if it is [MONSTERS_FIRST_20] or [PLACES_FIRST_20]. *)
Theorem module_exposes_exactly_two_names (name : string) :
  startswith name "__" = false ->
  ((exists l, getattr module_globals name = Ok l) <->
   (name = "MONSTERS_FIRST_20" \/ name = "PLACES_FIRST_20")).
Proof.
  intros Hname. split.
  - intros [l Hl].
    destruct (decide (name = "MONSTERS_FIRST_20")) as [?|Hm]; [by left|].
    destruct (decide (name = "PLACES_FIRST_20")) as [?|Hp]; [by right|].
    rewrite getattr_other in Hl by done. discriminate.
  - intros [->| ->]; eexists.
    + apply getattr_MONSTERS_FIRST_20.
    + apply getattr_PLACES_FIRST_20.
Qed.

Lemma module_exposes_exactly_two_names_witness :
  startswith "MONSTERS_FIRST_21" "__" = false /\
  ((exists l, getattr module_globals "MONSTERS_FIRST_21" = Ok l) <->
   ("MONSTERS_FIRST_21" = "MONSTERS_FIRST_20" \/
    "MONSTERS_FIRST_21" = "PLACES_FIRST_20")).
Proof.
  split; [reflexivity|].
  apply (module_exposes_exactly_two_names "MONSTERS_FIRST_21"). reflexivity.
Defined.

(** ** Executing the module body on any namespace *)

(** X4: whatever the namespace held before, executing the module body binds
    the two names to the two lists, and executing it a second time changes
    nothing. *)
Theorem exec_module_rebinds_and_is_idempotent (globals : gmap string (list string)) :
  getattr (exec_module globals) "MONSTERS_FIRST_20" = Ok MONSTERS_FIRST_20_literals /\
  getattr (exec_module globals) "PLACES_FIRST_20" = Ok PLACES_FIRST_20_literals /\
  exec_module (exec_module globals) = exec_module globals.
Proof.
  split; [|split].
  - unfold getattr, exec_module.
    rewrite lookup_insert_ne by done.
    by rewrite lookup_insert_eq, MONSTERS_FIRST_20_eq.
  - unfold getattr, exec_module.
    by rewrite lookup_insert_eq, PLACES_FIRST_20_eq.
  - apply exec_module_idemp.
Qed.

(** X5: executing the module body leaves every other name that does not start
    with two underscores as it was in the namespace, bound or unbound. *)
Theorem exec_module_keeps_other_names
    (globals : gmap string (list string)) (name : string) :
  startswith name "__" = false ->
  name <> "MONSTERS_FIRST_20" -> name <> "PLACES_FIRST_20" ->
  getattr (exec_module globals) name = getattr globals name.
Proof.
  intros _ Hm Hp. unfold getattr, exec_module.
  by rewrite !lookup_insert_ne by done.
Qed.

Lemma exec_module_keeps_other_names_witness :
  startswith "other" "__" = false /\
  "other" <> "MONSTERS_FIRST_20" /\ "other" <> "PLACES_FIRST_20" /\
  getattr (exec_module {["other" := ["kept"]]}) "other"
  = getattr {["other" := ["kept"]]} "other".
Proof.
  split; [reflexivity|]. split; [done|]. split; [done|].
  by apply (exec_module_keeps_other_names {["other" := ["kept"]]} "other").
Defined.

(** ** A text identifies its place *)

(** A successful read of one of the two constants at an index from 0 up
    finds the string at that position of the constant's list. *)
Lemma read_item_Ok_inv (name : string) (i : Z) (s : string) :
  name = "MONSTERS_FIRST_20" \/ name = "PLACES_FIRST_20" ->
  (0 <= i)%Z -> read_item module_globals name i = Ok s ->
  (name = "MONSTERS_FIRST_20" /\ MONSTERS_FIRST_20 !! Z.to_nat i = Some s) \/
  (name = "PLACES_FIRST_20" /\ PLACES_FIRST_20 !! Z.to_nat i = Some s).
Proof.
  intros [->| ->] Hi Hread.
  - left. split; [done|]. rewrite read_item_MONSTERS_FIRST_20 in Hread.
    by apply getitem_Ok_nonneg.
  - right. split; [done|]. rewrite read_item_PLACES_FIRST_20 in Hread.
    by apply getitem_Ok_nonneg.
Qed.

Lemma lookup_in_both (i j : nat) (s : string) :
  MONSTERS_FIRST_20 !! i = Some s -> PLACES_FIRST_20 !! j = Some s -> False.
Proof.
  intros Hm Hp.
  assert (Hi : (i < 20)%nat)
    by (rewrite <- length_MONSTERS_FIRST_20; eapply lookup_lt_Some; eauto).
  assert (Heq : i = (length MONSTERS_FIRST_20 + j)%nat).
  { apply (NoDup_lookup _ _ _ s all_forty_texts_distinct).
    - by apply lookup_app_l_Some.
    - by rewrite lookup_app_r, Nat.add_comm, Nat.add_sub by lia. }
  rewrite length_MONSTERS_FIRST_20 in Heq. lia.
Qed.

Lemma texts_distinct_within :
  NoDup MONSTERS_FIRST_20 /\ NoDup PLACES_FIRST_20.
Proof.
  pose proof all_forty_texts_distinct as H.
  apply NoDup_app in H as (Hm & _ & Hp). by split.
Qed.

(** X6: a ground-truth text identifies where it came from: for [n1] and [n2]
    each one of the two constants, if reading [n1] at [i] and [n2] at [j]
    (both from 0 up) returns the same string, then [n1 = n2] and [i = j]. *)
Theorem text_identifies_constant_and_index (n1 n2 : string) (i j : Z) (s : string) :
  n1 = "MONSTERS_FIRST_20" \/ n1 = "PLACES_FIRST_20" ->
  n2 = "MONSTERS_FIRST_20" \/ n2 = "PLACES_FIRST_20" ->
  (0 <= i)%Z -> (0 <= j)%Z ->
  read_item module_globals n1 i = Ok s ->
  read_item module_globals n2 j = Ok s ->
  n1 = n2 /\ i = j.
Proof.
  intros Hn1 Hn2 Hi Hj H1 H2.
  apply read_item_Ok_inv in H1; [|done..]. apply read_item_Ok_inv in H2; [|done..].
  destruct H1 as [[-> Hs1]|[-> Hs1]], H2 as [[-> Hs2]|[-> Hs2]].
  - split; [done|].
    pose proof (NoDup_lookup _ _ _ _ (proj1 texts_distinct_within) Hs1 Hs2).
    lia.
  - destruct (lookup_in_both _ _ _ Hs1 Hs2).
  - destruct (lookup_in_both _ _ _ Hs2 Hs1).
  - split; [done|].
    pose proof (NoDup_lookup _ _ _ _ (proj2 texts_distinct_within) Hs1 Hs2).
    lia.
Qed.

Lemma text_identifies_constant_and_index_witness :
  ("PLACES_FIRST_20" = "MONSTERS_FIRST_20" \/ "PLACES_FIRST_20" = "PLACES_FIRST_20") /\
  (0 <= 9)%Z /\ (0 <= 9)%Z /\
  read_item module_globals "PLACES_FIRST_20" 9 = Ok "Whispering Glade: An ancient forest where ethereal spirits share secrets of lost magic, once a sacred meeting place for wizards of old." /\
  ("PLACES_FIRST_20" = "PLACES_FIRST_20" /\ 9%Z = 9%Z).
Proof.
  assert (Hread : read_item module_globals "PLACES_FIRST_20" 9 = Ok "Whispering Glade: An ancient forest where ethereal spirits share secrets of lost magic, once a sacred meeting place for wizards of old.")
    by (rewrite read_item_PLACES_FIRST_20, PLACES_FIRST_20_eq; reflexivity).
  assert (Hname : "PLACES_FIRST_20" = "MONSTERS_FIRST_20" \/ "PLACES_FIRST_20" = "PLACES_FIRST_20")
    by (right; reflexivity).
  split; [exact Hname|]. split; [lia|]. split; [lia|]. split; [exact Hread|].
  apply (text_identifies_constant_and_index _ _ 9 9 _
           Hname Hname ltac:(lia) ltac:(lia) Hread Hread).
Defined.

(** ** Shape of the texts *)

(** X7: every element of both sequences is made of printable ASCII characters
    only and holds no double quote and no backslash, so each source literal
    denotes its own text, character for character. *)
Theorem every_element_is_plain_printable_ascii :
  Forall (fun s => all_chars is_printable_ascii s = true /\
                   all_chars (fun c => negb (needs_escape c)) s = true)
         (MONSTERS_FIRST_20 ++ PLACES_FIRST_20).
Proof. by_evaluation. Qed.

(** X8: no element of either sequence needs whitespace normalisation: none
    starts or ends with a space and none contains two spaces in a row. *)
Theorem every_element_is_whitespace_normalised :
  Forall (fun s => startswith s " " = false /\ endswith s " " = false /\
                   contains "  " s = false)
         (MONSTERS_FIRST_20 ++ PLACES_FIRST_20).
Proof. by_evaluation. Qed.

(** X9: every element of both sequences is a single sentence: its only
    sentence-terminating stop is the full stop that ends it. *)
Theorem every_element_is_a_single_sentence :
  Forall (fun s => count_stops s = 1%nat /\ endswith s "." = true)
         (MONSTERS_FIRST_20 ++ PLACES_FIRST_20).
Proof. by_evaluation. Qed.

(** X10: every element of both sequences is between 135 and 230 characters
    long. *)
Theorem every_element_length_is_bounded :
  Forall (fun s => (135 <= String.length s <= 230)%nat)
         (MONSTERS_FIRST_20 ++ PLACES_FIRST_20).
Proof. by_evaluation. Qed.
